(** * travel_utils: great-circle distance and travel time

    Shallow embedding of [travel_utils.py] over exact real arithmetic.
    Python's [ValueError] is modelled by an error monad; [math.sqrt]
    and [math.asin] are partial, raising a domain error outside
    [[0, +oo)] and [[-1, 1]] as CPython's [math] module does, while
    [math.sin], [math.cos] and [math.radians] are total on reals. *)

From Stdlib Require Import Reals Psatz String.

Open Scope R_scope.

(** ** Errors and the error monad *)

Inductive py_error : Type :=
| ValueError (msg : string).

Inductive result (A : Type) : Type :=
| Ok (v : A)
| Err (e : py_error).

Arguments Ok {A} v.
Arguments Err {A} e.

Definition bind {A B : Type} (m : result A) (k : A -> result B) : result B :=
  match m with
  | Ok v => k v
  | Err e => Err e
  end.

Notation "x <- m ;; k" := (bind m (fun x => k))
  (at level 61, m at next level, right associativity).

(** The error raised by [travel_time_s] on a non-positive speed. *)
Definition speed_error : py_error := ValueError "Speed must be positive".

(** The error raised by [math.sqrt] / [math.asin] outside their domains. *)
Definition domain_error : py_error := ValueError "math domain error".

(** ** The [math] module *)

(** [math.radians(x)] is [x * (pi / 180)]. *)
Definition radians (x : R) : R := x * (PI / 180).

(** [math.sqrt] raises on negative arguments. *)
Definition math_sqrt (x : R) : result R :=
  if Rlt_dec x 0 then Err domain_error else Ok (sqrt x).

(** [math.asin] raises outside [[-1, 1]]. *)
Definition math_asin (x : R) : result R :=
  if Rlt_dec x (-1) then Err domain_error
  else if Rlt_dec 1 x then Err domain_error
  else Ok (asin x).

(** ** travel_utils.py *)

(** [travel_time_s(dist_km, speed_kmh)], lines 4-21. *)
Definition travel_time_s (dist_km speed_kmh : R) : result R :=
  if Rle_dec speed_kmh 0 then Err speed_error
  else
    let time_hours := dist_km / speed_kmh in
    let time_seconds := time_hours * 3600 in
    Ok time_seconds.

(** The intermediate value [a] of [haversine], lines 36-41. *)
Definition haversine_a (lat1 lon1 lat2 lon2 : R) : R :=
  let lat1 := radians lat1 in
  let lon1 := radians lon1 in
  let lat2 := radians lat2 in
  let lon2 := radians lon2 in
  let dlon := lon2 - lon1 in
  let dlat := lat2 - lat1 in
  sin (dlat / 2) ^ 2 + cos lat1 * cos lat2 * sin (dlon / 2) ^ 2.

(** [haversine(lat1, lon1, lat2, lon2)], lines 24-44. *)
Definition haversine (lat1 lon1 lat2 lon2 : R) : result R :=
  let a := haversine_a lat1 lon1 lat2 lon2 in
  s <- math_sqrt a ;;
  t <- math_asin s ;;
  let c := 2 * t in
  let r := 6371 in
  Ok (c * r).

(** [distance_and_time(lat1, lon1, lat2, lon2, speed_kmh)], lines 47-61. *)
Definition distance_and_time (lat1 lon1 lat2 lon2 speed_kmh : R)
  : result (R * R) :=
  dist_km <- haversine lat1 lon1 lat2 lon2 ;;
  time_s <- travel_time_s dist_km speed_kmh ;;
  Ok (dist_km, time_s).

(** ** The spec's algorithm (4.1), for comparison with [haversine] *)

Definition haversine_spec (lat1 lon1 lat2 lon2 : R) : R :=
  let lat1_rad := lat1 * PI / 180 in
  let lon1_rad := lon1 * PI / 180 in
  let lat2_rad := lat2 * PI / 180 in
  let lon2_rad := lon2 * PI / 180 in
  let dlat := lat2_rad - lat1_rad in
  let dlon := lon2_rad - lon1_rad in
  let a := Rsqr (sin (dlat / 2))
           + cos lat1_rad * cos lat2_rad * Rsqr (sin (dlon / 2)) in
  let c := 2 * asin (sqrt a) in
  c * 6371.

(** ** Auxiliary lemmas *)

Lemma sin_half_sqr (x : R) : sin (x / 2) ^ 2 = (1 - cos x) / 2.
Proof.
  replace x with (2 * (x / 2)) at 2 by field.
  rewrite cos_2a_sin. field.
Qed.

Lemma sum3_sqr_nonneg (x y z : R) : 0 <= x * x + y * y + z * z.
Proof.
  pose proof (Rle_0_sqr x). pose proof (Rle_0_sqr y). pose proof (Rle_0_sqr z).
  unfold Rsqr in *. lra.
Qed.

(** [a] is [(1 - u.v) / 2] for the unit vectors [u], [v] of the two points,
    so it lies in [[0, 1]] for any real angles. *)
Lemma haversine_a_bounds (lat1 lon1 lat2 lon2 : R) :
  0 <= haversine_a lat1 lon1 lat2 lon2 <= 1.
Proof.
  unfold haversine_a.
  set (p1 := radians lat1). set (p2 := radians lat2).
  set (l1 := radians lon1). set (l2 := radians lon2).
  rewrite !sin_half_sqr, !cos_minus.
  pose proof (sin2_cos2 p1) as E1. pose proof (sin2_cos2 p2) as E2.
  pose proof (sin2_cos2 l1) as E3. pose proof (sin2_cos2 l2) as E4.
  unfold Rsqr in *.
  set (sp1 := sin p1) in *. set (cp1 := cos p1) in *.
  set (sp2 := sin p2) in *. set (cp2 := cos p2) in *.
  set (sl1 := sin l1) in *. set (cl1 := cos l1) in *.
  set (sl2 := sin l2) in *. set (cl2 := cos l2) in *.
  assert (F3 : cp1 * cp1 * (sl1 * sl1 + cl1 * cl1) = cp1 * cp1)
    by (rewrite E3; ring).
  assert (F4 : cp2 * cp2 * (sl2 * sl2 + cl2 * cl2) = cp2 * cp2)
    by (rewrite E4; ring).
  split.
  - (* 4 a = |u - v|^2 *)
    assert (0 <= (cp1 * cl1 - cp2 * cl2) * (cp1 * cl1 - cp2 * cl2)
                 + (cp1 * sl1 - cp2 * sl2) * (cp1 * sl1 - cp2 * sl2)
                 + (sp1 - sp2) * (sp1 - sp2)) by apply sum3_sqr_nonneg.
    lra.
  - (* 4 (1 - a) = |u + v|^2 *)
    assert (0 <= (cp1 * cl1 + cp2 * cl2) * (cp1 * cl1 + cp2 * cl2)
                 + (cp1 * sl1 + cp2 * sl2) * (cp1 * sl1 + cp2 * sl2)
                 + (sp1 + sp2) * (sp1 + sp2)) by apply sum3_sqr_nonneg.
    lra.
Qed.

Lemma math_sqrt_ok (x : R) : 0 <= x -> math_sqrt x = Ok (sqrt x).
Proof.
  intros Hx. unfold math_sqrt. destruct (Rlt_dec x 0); [lra | reflexivity].
Qed.

Lemma math_asin_ok (x : R) : -1 <= x <= 1 -> math_asin x = Ok (asin x).
Proof.
  intros Hx. unfold math_asin.
  destruct (Rlt_dec x (-1)); [lra |].
  destruct (Rlt_dec 1 x); [lra | reflexivity].
Qed.

Lemma sqrt_unit_interval (x : R) : 0 <= x <= 1 -> 0 <= sqrt x <= 1.
Proof.
  intros Hx. split.
  - apply sqrt_pos.
  - rewrite <- sqrt_1. apply sqrt_le_1_alt. lra.
Qed.

(** On every real input the domain checks of [math.sqrt] and [math.asin]
    pass, and [haversine] returns [2 * asin (sqrt a) * 6371]. *)
Lemma haversine_ok (lat1 lon1 lat2 lon2 : R) :
  haversine lat1 lon1 lat2 lon2 =
  Ok (2 * asin (sqrt (haversine_a lat1 lon1 lat2 lon2)) * 6371).
Proof.
  pose proof (haversine_a_bounds lat1 lon1 lat2 lon2) as Ha.
  pose proof (sqrt_unit_interval _ Ha) as Hs.
  unfold haversine.
  rewrite (math_sqrt_ok _ (proj1 Ha)). simpl.
  rewrite math_asin_ok by lra. reflexivity.
Qed.

Lemma asin_nonneg (x : R) : 0 <= x -> 0 <= asin x.
Proof.
  intros Hx.
  destruct (Rle_dec 1 x) as [H1 | H1].
  - unfold asin. destruct (Rle_dec x (-1)); [lra |].
    destruct (Rle_dec 1 x); [pose proof PI_RGT_0; lra | lra].
  - pose proof (asin_bound x) as [Hlo Hhi].
    destruct (Rle_dec 0 (asin x)) as [Hp | Hn]; [exact Hp |].
    exfalso.
    assert (Hsin : sin (asin x) < 0).
    { apply sin_lt_0_var; pose proof PI_RGT_0; lra. }
    rewrite sin_asin in Hsin by lra. lra.
Qed.

Lemma haversine_bounded (lat1 lon1 lat2 lon2 : R) :
  exists d, haversine lat1 lon1 lat2 lon2 = Ok d /\ 0 <= d <= PI * 6371.
Proof.
  rewrite haversine_ok. eexists. split; [reflexivity |].
  pose proof (haversine_a_bounds lat1 lon1 lat2 lon2) as Ha.
  pose proof (sqrt_unit_interval _ Ha) as Hs.
  pose proof (asin_nonneg _ (proj1 Hs)).
  pose proof (asin_bound (sqrt (haversine_a lat1 lon1 lat2 lon2))).
  lra.
Qed.

Lemma travel_time_s_ok (d s : R) :
  0 < s -> travel_time_s d s = Ok (d / s * 3600).
Proof.
  intros Hs. unfold travel_time_s.
  destruct (Rle_dec s 0); [lra | reflexivity].
Qed.

Lemma travel_time_s_err (d s : R) :
  s <= 0 -> travel_time_s d s = Err speed_error.
Proof.
  intros Hs. unfold travel_time_s.
  destruct (Rle_dec s 0); [reflexivity | lra].
Qed.

Lemma haversine_a_same_point (lat lon : R) : haversine_a lat lon lat lon = 0.
Proof.
  unfold haversine_a.
  rewrite !Rminus_diag. unfold Rdiv. rewrite Rmult_0_l, sin_0. ring.
Qed.

Lemma haversine_a_sym (lat1 lon1 lat2 lon2 : R) :
  haversine_a lat1 lon1 lat2 lon2 = haversine_a lat2 lon2 lat1 lon1.
Proof.
  unfold haversine_a.
  set (p1 := radians lat1). set (p2 := radians lat2).
  set (l1 := radians lon1). set (l2 := radians lon2).
  replace ((p1 - p2) / 2) with (- ((p2 - p1) / 2)) by field.
  replace ((l1 - l2) / 2) with (- ((l2 - l1) / 2)) by field.
  rewrite !sin_neg. ring.
Qed.

Lemma radians_full_turn (x : R) : radians (x + 360) = radians x + 2 * PI.
Proof. unfold radians. field. Qed.

Lemma sin_sqr_shift_PI (x : R) : sin (x - PI) ^ 2 = sin x ^ 2.
Proof. rewrite sin_minus, sin_PI, cos_PI. ring. Qed.

Lemma sin_sqr_shift_PI' (x : R) : sin (x + PI) ^ 2 = sin x ^ 2.
Proof. rewrite neg_sin. ring. Qed.

Lemma haversine_a_lon1_turn (lat1 lon1 lat2 lon2 : R) :
  haversine_a lat1 (lon1 + 360) lat2 lon2 = haversine_a lat1 lon1 lat2 lon2.
Proof.
  unfold haversine_a. rewrite radians_full_turn.
  replace ((radians lon2 - (radians lon1 + 2 * PI)) / 2)
    with ((radians lon2 - radians lon1) / 2 - PI) by field.
  rewrite sin_sqr_shift_PI. reflexivity.
Qed.

Lemma haversine_a_lon2_turn (lat1 lon1 lat2 lon2 : R) :
  haversine_a lat1 lon1 lat2 (lon2 + 360) = haversine_a lat1 lon1 lat2 lon2.
Proof.
  unfold haversine_a. rewrite radians_full_turn.
  replace ((radians lon2 + 2 * PI - radians lon1) / 2)
    with ((radians lon2 - radians lon1) / 2 + PI) by field.
  rewrite sin_sqr_shift_PI'. reflexivity.
Qed.

(** ** Claims *)

(** C1: on every real input [haversine] succeeds and returns exactly the
    spec's algorithm: radians, [dlat], [dlon],
    [a = sin^2(dlat/2) + cos lat1 cos lat2 sin^2(dlon/2)],
    [c = 2 asin (sqrt a)], result [c * 6371]. *)
Theorem haversine_refines_spec (lat1 lon1 lat2 lon2 : R) :
  haversine lat1 lon1 lat2 lon2 = Ok (haversine_spec lat1 lon1 lat2 lon2).
Proof.
  rewrite haversine_ok. unfold haversine_spec, haversine_a, radians, Rsqr.
  do 4 (rewrite <- Rmult_div_assoc).
  f_equal. f_equal. f_equal. f_equal. f_equal. ring.
Qed.

(** C2: [travel_time_s d s] raises the invalid-argument error exactly when
    [s <= 0], and for [s > 0] returns [d / s * 3600] for every real [d],
    negative ones included. *)
Theorem travel_time_s_spec (d s : R) :
  (travel_time_s d s = Err speed_error <-> s <= 0) /\
  ((exists e, travel_time_s d s = Err e) <-> s <= 0) /\
  (0 < s -> travel_time_s d s = Ok (d / s * 3600)).
Proof.
  destruct (Rle_dec s 0) as [Hle | Hgt].
  - rewrite (travel_time_s_err d s Hle).
    split; [tauto | split; [split; [intros; exact Hle | eauto] | intros; lra]].
  - assert (Hs : 0 < s) by lra.
    rewrite (travel_time_s_ok d s Hs).
    split; [split; [discriminate | lra] |].
    split; [split; [intros [e He]; discriminate | lra] | reflexivity].
Qed.

(** C3: [distance_and_time] is the composition of [haversine] and
    [travel_time_s] on the computed distance: the pair
    [(h, travel_time_s h s)] when [s > 0], and the unchanged
    invalid-argument error of [travel_time_s] when [s <= 0]. *)
Theorem distance_and_time_composition (lat1 lon1 lat2 lon2 s : R) :
  exists h,
    haversine lat1 lon1 lat2 lon2 = Ok h /\
    (0 < s -> exists t, travel_time_s h s = Ok t /\
                        distance_and_time lat1 lon1 lat2 lon2 s = Ok (h, t)) /\
    (s <= 0 -> distance_and_time lat1 lon1 lat2 lon2 s = Err speed_error /\
               travel_time_s h s = Err speed_error).
Proof.
  rewrite haversine_ok.
  set (h := 2 * asin (sqrt (haversine_a lat1 lon1 lat2 lon2)) * 6371).
  exists h. split; [reflexivity | split].
  - intros Hs. exists (h / s * 3600). rewrite travel_time_s_ok by exact Hs.
    split; [reflexivity |].
    unfold distance_and_time. rewrite haversine_ok. simpl.
    rewrite travel_time_s_ok by exact Hs. reflexivity.
  - intros Hs. rewrite travel_time_s_err by exact Hs. split; [| reflexivity].
    unfold distance_and_time. rewrite haversine_ok. simpl.
    rewrite travel_time_s_err by exact Hs. reflexivity.
Qed.

(** C4: [haversine] raises no error on any real input: the intermediate
    [a] lies in [[0, 1]], so [math.sqrt] and [math.asin] never fail. *)
Theorem haversine_total (lat1 lon1 lat2 lon2 : R) :
  0 <= haversine_a lat1 lon1 lat2 lon2 <= 1 /\
  (forall e, haversine lat1 lon1 lat2 lon2 <> Err e).
Proof.
  split; [apply haversine_a_bounds |].
  intros e. rewrite haversine_ok. discriminate.
Qed.

(** C5: the distance returned by [haversine] lies in [[0, PI * 6371]]. *)
Theorem haversine_range (lat1 lon1 lat2 lon2 : R) :
  exists d, haversine lat1 lon1 lat2 lon2 = Ok d /\ 0 <= d <= PI * 6371.
Proof. apply haversine_bounded. Qed.

(** C6: [haversine] is symmetric in its two points. *)
Theorem haversine_symmetric (lat1 lon1 lat2 lon2 : R) :
  haversine lat1 lon1 lat2 lon2 = haversine lat2 lon2 lat1 lon1.
Proof.
  unfold haversine. rewrite haversine_a_sym. reflexivity.
Qed.

(** C7: [haversine] of a point with itself is exactly [0]. *)
Theorem haversine_same_point (lat lon : R) : haversine lat lon lat lon = Ok 0.
Proof.
  rewrite haversine_ok, haversine_a_same_point, sqrt_0, asin_0.
  f_equal. ring.
Qed.

(** C8 (counterexample): [travel_time_s] accepts the negative distance
    [-1] at speed [1] and returns the negative time [-3600]. *)
Lemma travel_time_s_negative_time :
  travel_time_s (-1) 1 = Ok (-3600) /\
  ~ (forall d s t, travel_time_s d s = Ok t -> 0 <= t).
Proof.
  assert (H : travel_time_s (-1) 1 = Ok (-3600)).
  { rewrite travel_time_s_ok by lra. f_equal. field. }
  split; [exact H |].
  intros Hall. specialize (Hall _ _ _ H). lra.
Qed.

(** C8 (amended): a time returned by [travel_time_s] is non-negative exactly
    when the distance is, and the time component returned by
    [distance_and_time] is always non-negative. *)
Theorem time_nonneg (d s t lat1 lon1 lat2 lon2 s' h t' : R) :
  (travel_time_s d s = Ok t -> (0 <= t <-> 0 <= d)) /\
  (distance_and_time lat1 lon1 lat2 lon2 s' = Ok (h, t') -> 0 <= t').
Proof.
  split.
  - intros Ht. destruct (Rle_dec s 0) as [Hle | Hgt].
    + rewrite travel_time_s_err in Ht by exact Hle. discriminate.
    + assert (Hs : 0 < s) by lra.
      rewrite travel_time_s_ok in Ht by exact Hs. injection Ht as <-.
      unfold Rdiv. pose proof (Rinv_0_lt_compat s Hs).
      split; intros; nra.
  - intros Hdt.
    destruct (haversine_bounded lat1 lon1 lat2 lon2) as [h0 [Hh0 Hb]].
    unfold distance_and_time in Hdt. rewrite Hh0 in Hdt. simpl in Hdt.
    destruct (Rle_dec s' 0) as [Hle | Hgt].
    + rewrite travel_time_s_err in Hdt by exact Hle. discriminate.
    + assert (Hs : 0 < s') by lra.
      rewrite travel_time_s_ok in Hdt by exact Hs. injection Hdt as <- <-.
      unfold Rdiv. pose proof (Rinv_0_lt_compat s' Hs). nra.
Qed.

Lemma time_nonneg_witness :
  travel_time_s 100 50 = Ok 7200 /\
  (0 <= 7200 <-> 0 <= 100) /\
  (distance_and_time 0 0 0 0 10 = Ok (0, 0) -> 0 <= 0).
Proof.
  assert (H : travel_time_s 100 50 = Ok 7200).
  { rewrite travel_time_s_ok by lra. f_equal. field. }
  split; [exact H |].
  split.
  - exact (proj1 (time_nonneg 100 50 7200 0 0 0 0 10 0 0) H).
  - exact (proj2 (time_nonneg 100 50 7200 0 0 0 0 10 0 0)).
Defined.

(** C9: for a non-negative distance, [travel_time_s] is antitone in the
    speed. *)
Theorem travel_time_s_antitone (d s1 s2 : R) :
  0 <= d -> 0 < s1 -> s1 <= s2 ->
  exists t1 t2, travel_time_s d s1 = Ok t1 /\ travel_time_s d s2 = Ok t2 /\
                t2 <= t1.
Proof.
  intros Hd Hs1 H12.
  exists (d / s1 * 3600), (d / s2 * 3600).
  rewrite !travel_time_s_ok by lra.
  split; [reflexivity | split; [reflexivity |]].
  unfold Rdiv.
  assert (/ s2 <= / s1) by (apply Rinv_le_contravar; lra).
  nra.
Qed.

Lemma travel_time_s_antitone_witness :
  exists t1 t2, travel_time_s 100 50 = Ok t1 /\ travel_time_s 100 100 = Ok t2 /\
                t2 <= t1.
Proof.
  apply (travel_time_s_antitone 100 50 100); lra.
Defined.

(** C10: shifting either longitude by a full turn (360 degrees) leaves
    [haversine] unchanged. *)
Theorem haversine_lon_full_turn (lat1 lon1 lat2 lon2 : R) :
  haversine lat1 (lon1 + 360) lat2 lon2 = haversine lat1 lon1 lat2 lon2 /\
  haversine lat1 lon1 lat2 (lon2 + 360) = haversine lat1 lon1 lat2 lon2.
Proof.
  unfold haversine.
  rewrite haversine_a_lon1_turn, haversine_a_lon2_turn. split; reflexivity.
Qed.

(** ** Further properties of the module *)

(** [a] depends on the two points only through the dot product of their
    unit vectors. *)
Lemma haversine_a_dot (lat1 lon1 lat2 lon2 : R) :
  haversine_a lat1 lon1 lat2 lon2 =
  (1 - (sin (radians lat1) * sin (radians lat2)
        + cos (radians lat1) * cos (radians lat2)
          * cos (radians lon2 - radians lon1))) / 2.
Proof.
  unfold haversine_a. cbv zeta. rewrite !sin_half_sqr.
  rewrite (cos_minus (radians lat2) (radians lat1)). lra.
Qed.

Lemma asin_abs_sin (x : R) : Rabs x <= PI / 2 -> asin (Rabs (sin x)) = Rabs x.
Proof.
  intros Hx. pose proof PI_RGT_0.
  destruct (Rle_dec 0 x) as [Hp | Hn].
  - rewrite (Rabs_pos_eq x Hp) in *.
    rewrite Rabs_pos_eq by (apply sin_ge_0; lra).
    apply asin_sin. lra.
  - assert (Hx' : Rabs x = - x) by (apply Rabs_left; lra).
    rewrite Hx' in *.
    assert (Hs : 0 <= sin (- x)) by (apply sin_ge_0; lra).
    rewrite sin_neg in Hs.
    rewrite Rabs_left1 by lra.
    rewrite <- sin_neg. apply asin_sin. lra.
Qed.

(** When [a] is the square of the sine of a half angle [x] with
    [|x| <= PI/2], [haversine] is the arc [2 |x|] times the radius. *)
Lemma haversine_half_angle (lat1 lon1 lat2 lon2 x : R) :
  haversine_a lat1 lon1 lat2 lon2 = sin x ^ 2 -> Rabs x <= PI / 2 ->
  haversine lat1 lon1 lat2 lon2 = Ok (2 * Rabs x * 6371).
Proof.
  intros Ha Hx. rewrite haversine_ok, Ha.
  replace (sin x ^ 2) with (Rsqr (sin x)) by (unfold Rsqr; ring).
  rewrite sqrt_Rsqr_abs, asin_abs_sin by exact Hx. reflexivity.
Qed.

Lemma radians_abs_half (d : R) :
  Rabs (radians d / 2) = Rabs d * (PI / 360).
Proof.
  unfold radians, Rdiv.
  rewrite !Rabs_mult, (Rabs_pos_eq PI) by (pose proof PI_RGT_0; lra).
  rewrite !Rabs_inv, !(Rabs_pos_eq 180), (Rabs_pos_eq 2) by lra. field.
Qed.

Lemma radians_opp (x : R) : radians (- x) = - radians x.
Proof. unfold radians. ring. Qed.

Lemma radians_add (x y : R) : radians (x + y) = radians x + radians y.
Proof. unfold radians. ring. Qed.

Lemma radians_sub (x y : R) : radians (x - y) = radians x - radians y.
Proof. unfold radians. ring. Qed.

Lemma radians_180 : radians 180 = PI.
Proof. unfold radians. field. Qed.

Lemma radians_180_minus (x : R) : radians (180 - x) = PI - radians x.
Proof. unfold radians. field. Qed.

Lemma radians_plus_180 (x : R) : radians (x + 180) = radians x + PI.
Proof. unfold radians. field. Qed.

(** Shifting both longitudes by the same amount leaves [haversine]
    unchanged: only the longitude difference matters. *)
Theorem haversine_lon_translation (lat1 lon1 lat2 lon2 k : R) :
  haversine lat1 (lon1 + k) lat2 (lon2 + k) = haversine lat1 lon1 lat2 lon2.
Proof.
  unfold haversine, haversine_a. rewrite !radians_add.
  replace (radians lon2 + radians k - (radians lon1 + radians k))
    with (radians lon2 - radians lon1) by ring.
  reflexivity.
Qed.

(** Reflecting both points through the equator leaves [haversine]
    unchanged. *)
Theorem haversine_lat_reflection (lat1 lon1 lat2 lon2 : R) :
  haversine (- lat1) lon1 (- lat2) lon2 = haversine lat1 lon1 lat2 lon2.
Proof.
  assert (E : haversine_a (- lat1) lon1 (- lat2) lon2
              = haversine_a lat1 lon1 lat2 lon2).
  { rewrite !haversine_a_dot, !radians_opp, !sin_neg, !cos_neg. field. }
  unfold haversine. rewrite E. reflexivity.
Qed.

(** Reflecting both points through the prime meridian leaves [haversine]
    unchanged. *)
Theorem haversine_lon_reflection (lat1 lon1 lat2 lon2 : R) :
  haversine lat1 (- lon1) lat2 (- lon2) = haversine lat1 lon1 lat2 lon2.
Proof.
  unfold haversine. rewrite !haversine_a_dot, !radians_opp.
  replace (- radians lon2 - - radians lon1)
    with (- (radians lon2 - radians lon1)) by ring.
  rewrite cos_neg. reflexivity.
Qed.

(** [(180 - lat, lon + 180)] names the same point of the sphere as
    [(lat, lon)]: [haversine] gives the same distance for both. *)
Theorem haversine_over_pole_alias (lat1 lon1 lat2 lon2 : R) :
  haversine (180 - lat1) (lon1 + 180) lat2 lon2 =
  haversine lat1 lon1 lat2 lon2.
Proof.
  assert (E : haversine_a (180 - lat1) (lon1 + 180) lat2 lon2
              = haversine_a lat1 lon1 lat2 lon2).
  2: { unfold haversine. rewrite E. reflexivity. }
  rewrite !haversine_a_dot.
  rewrite radians_180_minus, radians_plus_180.
  rewrite sin_PI_x, (cos_minus PI), sin_PI, cos_PI.
  replace (radians lon2 - (radians lon1 + PI))
    with ((radians lon2 - radians lon1) - PI) by ring.
  rewrite (cos_minus _ PI), sin_PI, cos_PI.
  field.
Qed.

(** Every point is at distance [PI * 6371] (half the circumference) from
    its antipode [(-lat, lon + 180)]. *)
Theorem haversine_antipode (lat lon : R) :
  haversine lat lon (- lat) (lon + 180) = Ok (PI * 6371).
Proof.
  rewrite haversine_ok, haversine_a_dot.
  rewrite radians_opp, radians_add, radians_180, sin_neg, cos_neg.
  replace (radians lon + PI - radians lon) with PI by ring.
  rewrite cos_PI.
  pose proof (sin2_cos2 (radians lat)) as E. unfold Rsqr in E.
  replace ((1 - (sin (radians lat) * - sin (radians lat)
                 + cos (radians lat) * cos (radians lat) * -1)) / 2)
    with 1 by lra.
  rewrite sqrt_1, asin_1. f_equal. field.
Qed.

(** Along a meridian, for latitudes at most 180 degrees apart, [haversine]
    is the arc length [6371 * |lat2 - lat1|] in radians. *)
Theorem haversine_meridian (lat1 lat2 lon : R) :
  Rabs (lat2 - lat1) <= 180 ->
  haversine lat1 lon lat2 lon = Ok (6371 * (PI / 180) * Rabs (lat2 - lat1)).
Proof.
  intros Hd. pose proof PI_RGT_0.
  assert (Hx : Rabs (radians (lat2 - lat1) / 2) <= PI / 2).
  { rewrite radians_abs_half. nra. }
  rewrite (haversine_half_angle _ _ _ _ (radians (lat2 - lat1) / 2)).
  - rewrite radians_abs_half. f_equal. field.
  - unfold haversine_a. cbv zeta. rewrite Rminus_diag.
    replace (0 / 2) with 0 by field.
    rewrite sin_0, radians_sub. field.
  - exact Hx.
Qed.

Lemma haversine_meridian_witness :
  haversine 10 5 40 5 = Ok (6371 * (PI / 180) * Rabs (40 - 10)).
Proof.
  apply haversine_meridian. rewrite Rabs_pos_eq; lra.
Defined.

(** Along the equator, for longitudes at most 180 degrees apart,
    [haversine] is the arc length [6371 * |lon2 - lon1|] in radians. *)
Theorem haversine_equator (lon1 lon2 : R) :
  Rabs (lon2 - lon1) <= 180 ->
  haversine 0 lon1 0 lon2 = Ok (6371 * (PI / 180) * Rabs (lon2 - lon1)).
Proof.
  intros Hd. pose proof PI_RGT_0.
  assert (Hx : Rabs (radians (lon2 - lon1) / 2) <= PI / 2).
  { rewrite radians_abs_half. nra. }
  rewrite (haversine_half_angle _ _ _ _ (radians (lon2 - lon1) / 2)).
  - rewrite radians_abs_half. f_equal. field.
  - unfold haversine_a. cbv zeta. rewrite Rminus_diag.
    replace (0 / 2) with 0 by field.
    replace (radians 0) with 0 by (unfold radians; ring).
    rewrite sin_0, cos_0, radians_sub. field.
  - exact Hx.
Qed.

Lemma haversine_equator_witness :
  haversine 0 0 0 1 = Ok (6371 * (PI / 180) * Rabs (1 - 0)).
Proof.
  apply haversine_equator. rewrite Rabs_pos_eq; lra.
Defined.

(** [haversine] agrees with the spherical law of cosines: the central
    angle [d / 6371] has cosine
    [sin p1 sin p2 + cos p1 cos p2 cos (l2 - l1)]. *)
Theorem haversine_law_of_cosines (lat1 lon1 lat2 lon2 : R) :
  exists d, haversine lat1 lon1 lat2 lon2 = Ok d /\
    cos (d / 6371) =
    sin (radians lat1) * sin (radians lat2)
    + cos (radians lat1) * cos (radians lat2)
      * cos (radians lon2 - radians lon1).
Proof.
  rewrite haversine_ok. eexists. split; [reflexivity |].
  pose proof (haversine_a_bounds lat1 lon1 lat2 lon2) as Ha.
  pose proof (sqrt_unit_interval _ Ha) as Hs.
  replace (2 * asin (sqrt (haversine_a lat1 lon1 lat2 lon2)) * 6371 / 6371)
    with (2 * asin (sqrt (haversine_a lat1 lon1 lat2 lon2))) by field.
  rewrite cos_2a_sin, sin_asin by lra.
  rewrite Rmult_assoc, sqrt_sqrt by lra.
  rewrite haversine_a_dot. field.
Qed.

Lemma sin_cos_full_turn (x : R) :
  sin (x + 2 * PI) = sin x /\ cos (x + 2 * PI) = cos x.
Proof.
  rewrite sin_plus, cos_plus, sin_2PI, cos_2PI. split; ring.
Qed.

(** Shifting either latitude by a full turn (360 degrees) leaves
    [haversine] unchanged. *)
Theorem haversine_lat_full_turn (lat1 lon1 lat2 lon2 : R) :
  haversine (lat1 + 360) lon1 lat2 lon2 = haversine lat1 lon1 lat2 lon2 /\
  haversine lat1 lon1 (lat2 + 360) lon2 = haversine lat1 lon1 lat2 lon2.
Proof.
  assert (E1 : haversine_a (lat1 + 360) lon1 lat2 lon2
               = haversine_a lat1 lon1 lat2 lon2).
  { rewrite !haversine_a_dot, radians_full_turn.
    destruct (sin_cos_full_turn (radians lat1)) as [-> ->]. reflexivity. }
  assert (E2 : haversine_a lat1 lon1 (lat2 + 360) lon2
               = haversine_a lat1 lon1 lat2 lon2).
  { rewrite !haversine_a_dot, radians_full_turn.
    destruct (sin_cos_full_turn (radians lat2)) as [-> ->]. reflexivity. }
  unfold haversine. rewrite E1, E2. split; reflexivity.
Qed.

(** For a positive speed, [travel_time_s] is additive in the distance:
    the time of two legs is the sum of their times. *)
Theorem travel_time_s_additive (d1 d2 s t1 t2 : R) :
  0 < s -> travel_time_s d1 s = Ok t1 -> travel_time_s d2 s = Ok t2 ->
  travel_time_s (d1 + d2) s = Ok (t1 + t2).
Proof.
  intros Hs H1 H2.
  rewrite travel_time_s_ok in H1, H2 |- * by exact Hs.
  injection H1 as <-. injection H2 as <-. f_equal. field. lra.
Qed.

Lemma travel_time_s_additive_witness :
  travel_time_s (100 + 50) 50 = Ok (7200 + 3600).
Proof.
  apply (travel_time_s_additive 100 50 50 7200 3600).
  - lra.
  - rewrite travel_time_s_ok by lra. f_equal. field.
  - rewrite travel_time_s_ok by lra. f_equal. field.
Defined.

(** Multiplying the speed by [k > 0] divides the travel time by [k]. *)
Theorem travel_time_s_speed_scale (d s k t : R) :
  0 < s -> 0 < k -> travel_time_s d s = Ok t ->
  travel_time_s d (k * s) = Ok (t / k).
Proof.
  intros Hs Hk Ht.
  rewrite travel_time_s_ok in Ht by exact Hs. injection Ht as <-.
  rewrite travel_time_s_ok by nra. f_equal. field. lra.
Qed.

Lemma travel_time_s_speed_scale_witness :
  travel_time_s 100 (2 * 50) = Ok (7200 / 2).
Proof.
  apply (travel_time_s_speed_scale 100 50 2 7200).
  - lra.
  - lra.
  - rewrite travel_time_s_ok by lra. f_equal. field.
Defined.

(** For a positive speed, [travel_time_s] can be inverted: it returns [t]
    exactly for the distance [t * s / 3600]. *)
Theorem travel_time_s_inverse (d s t : R) :
  0 < s -> (travel_time_s d s = Ok t <-> d = t * s / 3600).
Proof.
  intros Hs. rewrite travel_time_s_ok by exact Hs. split.
  - intros H. injection H as <-. field. lra.
  - intros ->. f_equal. field. lra.
Qed.

Lemma travel_time_s_inverse_witness :
  travel_time_s 100 50 = Ok 7200 <-> 100 = 7200 * 50 / 3600.
Proof.
  apply travel_time_s_inverse. lra.
Defined.

(** [distance_and_time] is symmetric in its two points, for every speed
    (the error case included). *)
Theorem distance_and_time_symmetric (lat1 lon1 lat2 lon2 s : R) :
  distance_and_time lat1 lon1 lat2 lon2 s =
  distance_and_time lat2 lon2 lat1 lon1 s.
Proof.
  unfold distance_and_time, haversine. rewrite haversine_a_sym. reflexivity.
Qed.

(** For a positive speed, [distance_and_time] from a point to itself is
    [(0, 0)]. *)
Theorem distance_and_time_same_point (lat lon s : R) :
  0 < s -> distance_and_time lat lon lat lon s = Ok (0, 0).
Proof.
  intros Hs. unfold distance_and_time.
  rewrite haversine_ok, haversine_a_same_point, sqrt_0, asin_0. simpl.
  rewrite travel_time_s_ok by exact Hs.
  replace (2 * 0 * 6371) with 0 by ring.
  replace (0 / s * 3600) with 0 by (field; lra). reflexivity.
Qed.

Lemma distance_and_time_same_point_witness :
  distance_and_time 51 0 51 0 80 = Ok (0, 0).
Proof.
  apply distance_and_time_same_point. lra.
Defined.

(** For a positive speed, the time returned by [distance_and_time] is at
    most the time for half the circumference, [PI * 6371 / s * 3600]. *)
Theorem distance_and_time_time_bound (lat1 lon1 lat2 lon2 s h t : R) :
  0 < s -> distance_and_time lat1 lon1 lat2 lon2 s = Ok (h, t) ->
  t <= PI * 6371 / s * 3600.
Proof.
  intros Hs Hdt.
  destruct (haversine_bounded lat1 lon1 lat2 lon2) as [h0 [Hh0 Hb]].
  unfold distance_and_time in Hdt. rewrite Hh0 in Hdt. simpl in Hdt.
  rewrite travel_time_s_ok in Hdt by exact Hs. injection Hdt as <- <-.
  unfold Rdiv. pose proof (Rinv_0_lt_compat s Hs). nra.
Qed.

Lemma distance_and_time_time_bound_witness :
  distance_and_time 0 0 0 0 10 = Ok (0, 0) /\ 0 <= PI * 6371 / 10 * 3600.
Proof.
  assert (H : distance_and_time 0 0 0 0 10 = Ok (0, 0)).
  { unfold distance_and_time.
    rewrite haversine_ok, haversine_a_same_point, sqrt_0, asin_0. simpl.
    rewrite travel_time_s_ok by lra.
    replace (2 * 0 * 6371) with 0 by ring.
    replace (0 / 10 * 3600) with 0 by field. reflexivity. }
  split; [exact H |].
  apply (distance_and_time_time_bound 0 0 0 0 10 0 0); [lra | exact H].
Defined.
